(** * Corner tracking: the storage builder and the build pipeline

    A shallow embedding of [camtrack/corners.py]: the corner storage
    builder, the seeding / tracking loop of [_build_impl] and [build],
    together with the parts of the sibling module [_corners] that the
    file imports (frame corners, storage, the short-track filter).

    Python exceptions are modelled by an error value, the mutable builder
    object and the calls made to the OpenCV primitives by an explicit
    state that survives a raised exception. *)

From Stdlib Require Import QArith.
From stdpp Require Import gmap strings list sorting.

Local Open Scope Z_scope.

(** ** Exceptions and the evaluation monad *)

Inductive exn : Type :=
  | NameError (name : string)
  | IndexError
  | TypeError
  | ShapeMismatch
  | Cv2Error.

Global Instance exn_eq_dec : EqDecision exn.
Proof. solve_decision. Defined.

(** A 2D position; numpy holds them as floating point pairs, the model
    uses exact rationals (the only arithmetic is scaling by powers of 2). *)
Definition point : Type := (Q * Q)%type.

(** ** Frame corners (module [_corners], imported on line 18) *)

(** Modelled from the spec: [FrameCorners] is declared in [_corners], which
    is not part of the sources; one frame holds the ids, the positions and
    the sizes of its corners as three parallel sequences. *)
Record FrameCorners : Type := mkFrameCorners {
  ids : list Z;
  points : list point;
  sizes : list Z
}.

(** The shape invariant of one frame. *)
Definition frame_ok (c : FrameCorners) : Prop :=
  length (ids c) = length (points c) ∧
  length (points c) = length (sizes c) ∧
  NoDup (ids c).

Global Instance frame_ok_dec c : Decision (frame_ok c).
Proof. unfold frame_ok. apply _. Defined.

(** Modelled from the spec: the constructor of [FrameCorners] lives in
    [_corners], which is not part of the sources.  It checks that the
    three sequences have one length and that no id is repeated, and fails
    otherwise. *)
Definition FrameCorners_new (ids : list Z) (points : list point)
    (sizes : list Z) : exn + FrameCorners :=
  let c := mkFrameCorners ids points sizes in
  if decide (frame_ok c) then inr c else inl ShapeMismatch.

(** Selection by a boolean mask, [a[mask]] in numpy: the mask must be as
    long as the array. *)
Fixpoint mask_select {A} (l : list A) (mask : list bool) : exn + list A :=
  match l, mask with
  | [], [] => inr []
  | x :: l', b :: mask' =>
      match mask_select l' mask' with
      | inr r => inr (if b then x :: r else r)
      | inl e => inl e
      end
  | _, _ => inl IndexError
  end.

(** Modelled from the spec: [filter_frame_corners] of [_corners] keeps the
    entries selected by the mask, in their order. *)
Definition filter_frame_corners (c : FrameCorners) (mask : list bool)
    : exn + FrameCorners :=
  match mask_select (ids c) mask, mask_select (points c) mask,
        mask_select (sizes c) mask with
  | inr i, inr p, inr s => inr (mkFrameCorners i p s)
  | inl e, _, _ | _, inl e, _ | _, _, inl e => inl e
  end.

(** Modelled from the spec: [CornerStorage] and [StorageImpl] are declared
    in [_corners]; a corner storage is the frame-ordered sequence of frame
    corners and [StorageImpl] builds it from an iterable. *)
Definition CornerStorage : Type := list FrameCorners.
Definition StorageImpl (frames : list FrameCorners) : CornerStorage := frames.

(** ** The storage builder (lines 22-34) *)

(** [_progress_indicator] is [None] or a progress bar, of which only the
    position matters; [_corners] is the dict from frame index to corners. *)
Record _CornerStorageBuilder : Type := mkBuilder {
  _progress_indicator : option nat;
  _corners : gmap Z FrameCorners
}.

Definition new_builder (progress_indicator : option nat) : _CornerStorageBuilder :=
  {| _progress_indicator := progress_indicator; _corners := ∅ |}.

Definition set_corners_at_frame (frame : Z) (corners : FrameCorners)
    (self : _CornerStorageBuilder) : _CornerStorageBuilder :=
  {| _corners := <[frame := corners]> (_corners self);
     _progress_indicator := (λ pos, pos + 1)%nat <$> _progress_indicator self |}.

(** [sorted] compares the (frame, corners) tuples; the keys of a dict are
    distinct, so the comparison is decided by the frame index alone. *)
Definition item_le : relation (Z * FrameCorners) := λ a b, a.1 ≤ b.1.

Global Instance item_le_dec : RelDecision item_le.
Proof. intros a b. unfold item_le. apply _. Defined.

Definition build_corner_storage (self : _CornerStorageBuilder) : CornerStorage :=
  StorageImpl ((merge_sort item_le (map_to_list (_corners self))).*2).

(** The (frame, corners) items of the dict in the order [sorted] gives
    them, of which the storage keeps the second components. *)
Definition sorted_items (self : _CornerStorageBuilder) : list (Z * FrameCorners) :=
  merge_sort item_le (map_to_list (_corners self)).

(** ** Names bound at module level (lines 13-19, 22, 37, 137)

    A name that is not a local of the function is looked up in the module
    and then among the builtins; the lookup raises [NameError] when it is
    bound in neither. *)

Inductive pyobj : Type :=
  | PyModule (name : string)
  | PyClass (name : string)
  | PyFunction (name : string)
  | PyStrList (items : list string).

Definition module_globals : list (string * pyobj) :=
  [ ("__all__", PyStrList ["FrameCorners"; "CornerStorage"; "build"; "dump";
                           "load"; "draw"; "without_short_tracks"]);
    ("click", PyModule "click");
    ("cv2", PyModule "cv2");
    ("np", PyModule "numpy");
    ("pims", PyModule "pims");
    ("FrameCorners", PyClass "FrameCorners");
    ("CornerStorage", PyClass "CornerStorage");
    ("StorageImpl", PyClass "StorageImpl");
    ("dump", PyFunction "dump");
    ("load", PyFunction "load");
    ("draw", PyFunction "draw");
    ("without_short_tracks", PyFunction "without_short_tracks");
    ("create_cli", PyFunction "create_cli");
    ("_CornerStorageBuilder", PyClass "_CornerStorageBuilder");
    ("_build_impl", PyFunction "_build_impl");
    ("build", PyFunction "build") ]%string.

(** The builtins the file refers to. *)
Definition builtins : list (string * pyobj) :=
  [ ("dict", PyClass "dict"); ("range", PyClass "range");
    ("enumerate", PyClass "enumerate"); ("int", PyClass "int");
    ("len", PyFunction "len"); ("sorted", PyFunction "sorted") ]%string.

Fixpoint assoc (name : string) (env : list (string * pyobj)) : option pyobj :=
  match env with
  | [] => None
  | (n, o) :: env' => if String.eqb n name then Some o else assoc name env'
  end.

Definition load_global (name : string) : exn + pyobj :=
  match assoc name module_globals with
  | Some o => inr o
  | None =>
      match assoc name builtins with
      | Some o => inr o
      | None => inl (NameError name)
      end
  end.

(** [len(o)] of a module-level object: only a list has a length. *)
Definition py_len (o : pyobj) : exn + nat :=
  match o with
  | PyStrList items => inr (length items)
  | _ => inl TypeError
  end.

(** Calling a module-level object as [f(corners, mask)]: of the objects of
    the repository only [_corners.filter_frame_corners] takes a frame and
    a mask. *)
Definition call_filter (f : pyobj) (c : FrameCorners) (mask : list bool)
    : exn + FrameCorners :=
  match f with
  | PyFunction name =>
      if String.eqb name "filter_frame_corners"
      then filter_frame_corners c mask else inl TypeError
  | _ => inl TypeError
  end.

(** ** Parameters of the OpenCV primitives (lines 40-48) *)

Record FeatureParams : Type := {
  blockSize : Z; maxCorners : Z; minDistance : Z;
  qualityLevel : Q; useHarrisDetector : bool
}.

Definition feature_params : FeatureParams :=
  {| blockSize := 7; maxCorners := 0; minDistance := 7;
     qualityLevel := (91 # 1000)%Q; useHarrisDetector := false |}.

Record LKParams : Type := {
  winSize : Z * Z; maxLevel : Z; criteria : Z * Q
}.

Definition lk_params : LKParams :=
  {| winSize := (15, 15); maxLevel := 3; criteria := (20, (2 # 100)%Q) |}.

(** An exclusion mask: fully open, then the disks (centre, radius) that
    [cv2.circle] stamped into it as excluded, in drawing order. *)
Definition Mask : Type := list (point * Z).

(** [a * scale] and [a / scale] on positions. *)
Definition scale_point (scale : Z) (p : point) : point :=
  (p.1 * inject_Z scale, p.2 * inject_Z scale)%Q.
Definition unscale_point (scale : Z) (p : point) : point :=
  (p.1 / inject_Z scale, p.2 / inject_Z scale)%Q.

(** [np.arange(lo, lo + n)]. *)
Definition arange (lo : Z) (n : nat) : list Z := seqZ lo (Z.of_nat n).

(** [seq[0]] and [a.ravel()[-1]]. *)
Definition index0 {A} (l : list A) : exn + A :=
  match l with x :: _ => inr x | [] => inl IndexError end.
Definition index_last {A} (l : list A) : exn + A :=
  match last l with Some x => inr x | None => inl IndexError end.

(** ** The pipeline ([_build_impl], lines 37-134, and [build], 137-154) *)

Section Pipeline.
Context {image : Type}.

(** The OpenCV primitives the pipeline is handed: the pyramid step, the
    corner detector ([None] when it finds nothing), the optical-flow
    tracker (positions, status, error, parallel to its input; the
    conversion of the two images to [uint8] is part of it) and the disk
    drawn into a mask, given the centre as the code passes it.  The
    tracker and the drawing may refuse their arguments: [None] stands for
    the exception raised inside the call. *)
Variable pyrDown : image → image.
Variable goodFeaturesToTrack :
  image → option Mask → FeatureParams → option (list point).
Variable calcOpticalFlowPyrLK :
  image → image → list point → LKParams →
  option (list point * list Z * list Q).
Variable circle : Mask → point → Z → option Mask.

Inductive capability_call : Type :=
  | DetectCall (level : image) (mask : option Mask)
  | TrackCall (image_0 image_1 : image) (prev : list point).

(** What a run can change: the builder object it was handed and the log
    of primitive calls. *)
Record world : Type := mkWorld {
  builder : _CornerStorageBuilder;
  calls : list capability_call
}.

Definition M (A : Type) : Type := world → world * (exn + A).

Global Instance M_ret : MRet M := λ A x w, (w, inr x).
Global Instance M_bind : MBind M := λ A B f m w,
  match m w with
  | (w', inr x) => f x w'
  | (w', inl e) => (w', inl e)
  end.

Definition lift {A} (r : exn + A) : M A := λ w, (w, r).

Definition detect (level : image) (mask : option Mask)
    : M (option (list point)) := λ w,
  ({| builder := builder w; calls := calls w ++ [DetectCall level mask] |},
   inr (goodFeaturesToTrack level mask feature_params)).

Definition track (image_0 image_1 : image) (prev : list point)
    : M (list point * list Z * list Q) := λ w,
  ({| builder := builder w;
      calls := calls w ++ [TrackCall image_0 image_1 prev] |},
   match calcOpticalFlowPyrLK image_0 image_1 prev lk_params with
   | Some r => inr r
   | None => inl Cv2Error
   end).

(** Lines 112-114: for each point, [x, y = point / scale] and a filled
    disk of radius [7 * scale] drawn at [(x, y)]. *)
Fixpoint stamp (scale : Z) (points_on_level : list point) (mask : Mask)
    : M Mask :=
  match points_on_level with
  | [] => mret mask
  | point :: rest =>
      mask ← lift (match circle mask (unscale_point scale point) (7 * scale) with
                   | Some mask => inr mask
                   | None => inl Cv2Error
                   end);
      stamp scale rest mask
  end.

Definition builder_set (frame : Z) (corners : FrameCorners) : M unit := λ w,
  ({| builder := set_corners_at_frame frame corners (builder w);
      calls := calls w |}, inr ()).

(** [for counter, x in enumerate(l, start)] with the loop-carried
    variables in [s]. *)
Fixpoint for_enumerate {A S} (body : nat → A → S → M S) (start : nat)
    (l : list A) (s : S) : M S :=
  match l with
  | [] => mret s
  | x :: l' => s' ← body start x s; for_enumerate body (Datatypes.S start) l' s'
  end.

Definition max_level : nat := 2.

(** [levels = [top]], then [max_level] times [levels.append(pyrDown(levels[-1]))]. *)
Fixpoint pyramid (n : nat) (top : image) : list image :=
  match n with
  | O => [top]
  | Datatypes.S n' => top :: pyramid n' (pyrDown top)
  end.

(** Lines 64-69, one level of frame 0. *)
Definition seed_level (counter : nat) (level : image)
    (acc : list point * list Z) : M (list point * list Z) :=
  let '(points_, sizes_) := acc in
  let scale := 2 ^ Z.of_nat counter in
  new_points ← detect level None;
  match new_points with
  | Some new_points =>
      let points_ := points_ ++ (scale_point scale <$> new_points) in
      new_corners ← lift (load_global "new_corners");
      n ← lift (py_len new_corners);
      let sizes_ := sizes_ ++ replicate n (1 * 7 * scale) in
      mret (points_, sizes_)
  | None => mret (points_, sizes_)
  end.

(** Lines 107-131, one level of a later frame.  The loop carries
    [points], [sizes], [ids] and [corners]. *)
Definition track_level (tracked_corners prev_points : FrameCorners)
    (counter : nat) (level : image)
    (acc : list point * list Z * list Z * FrameCorners)
    : M (list point * list Z * list Z * FrameCorners) :=
  let '(points_, sizes_, ids_, _) := acc in
  let scale := 2 ^ Z.of_nat counter in
  points_on_level ← lift (mask_select (points prev_points)
    ((λ s, bool_decide (s = 7 * scale)) <$> sizes prev_points));
  mask ← stamp scale points_on_level [];
  new_points ← detect level (Some mask);
  '(points_, sizes_, ids_) ←
    match new_points with
    | Some new_points =>
        let points_ := points_ ++ (scale_point scale <$> new_points) in
        new_corners ← lift (load_global "new_corners");
        n ← lift (py_len new_corners);
        let sizes_ := sizes_ ++ replicate n (1 * 7 * scale) in
        let points_ := points tracked_corners ++ points_ in
        let sizes_ := sizes tracked_corners ++ sizes_ in
        last_ ← lift (index_last (ids prev_points));
        let last_id := last_ + 1 in
        let ids_ := arange last_id (length points_) in
        mret (points_, sizes_, ids_)
    | None => mret (points_, sizes_, ids_)
    end;
  corners ← lift (FrameCorners_new (ids prev_points ++ ids_)
                    (points prev_points ++ points_)
                    (sizes prev_points ++ sizes_));
  mret (points_, sizes_, ids_, corners).

(** Lines 82-134, the body of the loop over the frames after the first.
    The loop carries [corners] and [image_0]. *)
Definition track_frame (frame : nat) (image_1 : image)
    (carried : FrameCorners * image) : M (FrameCorners * image) :=
  let '(corners, image_0) := carried in
  '(next_points, st, err) ← track image_0 image_1 (points corners);
  filter_ ← lift (load_global "filter_frame_corners");
  let ok := (λ s, bool_decide (s = 1)) <$> st in
  tracked_corners ← lift (call_filter filter_ corners ok);
  _ ← builder_set (Z.of_nat frame - 1) tracked_corners;
  let levels := pyramid max_level image_1 in
  survivors ← lift (mask_select next_points ok);
  prev_points ← lift (FrameCorners_new (ids tracked_corners) survivors
                        (sizes tracked_corners));
  '(_, _, _, corners) ←
    for_enumerate (track_level tracked_corners prev_points) 0 levels
      ([], [], [], corners);
  _ ← builder_set (Z.of_nat frame) corners;
  mret (corners, image_1).

(** Lines 50-77 seed frame 0, lines 79-134 track the later frames.  The
    builder handed in is the one of the world. *)
Definition _build_impl (frame_sequence : list image) : M unit :=
  frame_0 ← lift (index0 frame_sequence);
  let levels := pyramid max_level frame_0 in
  '(points_, sizes_) ← for_enumerate seed_level 0 levels ([], []);
  corners ← lift (FrameCorners_new (arange 0 (length points_)) points_ sizes_);
  _ ← builder_set 0 corners;
  let image_0 := frame_0 in
  _ ← for_enumerate track_frame 1 (tail frame_sequence) (corners, image_0);
  mret ().

(** The world in which [build] starts: it makes its own builder, with a
    progress bar at position 0 when [progress] is set. *)
Definition start (progress : bool) : world :=
  {| builder := new_builder (if progress then Some 0%nat else None);
     calls := [] |}.

Definition the_builder : M _CornerStorageBuilder := λ w, (w, inr (builder w)).

Definition build_from (frame_sequence : list image) : M CornerStorage :=
  _ ← _build_impl frame_sequence;
  self ← the_builder;
  mret (build_corner_storage self).

Definition build (frame_sequence : list image) (progress : bool)
    : world * (exn + CornerStorage) :=
  build_from frame_sequence (start progress).

(** The two coarser levels of the pyramid of a frame. *)
Definition level1 (frame_0 : image) : image := pyrDown frame_0.
Definition level2 (frame_0 : image) : image := pyrDown (pyrDown frame_0).

(** The detector finds no corner at any level of the pyramid of a frame. *)
Definition no_corners (frame_0 : image) : Prop :=
  goodFeaturesToTrack frame_0 None feature_params = None ∧
  goodFeaturesToTrack (level1 frame_0) None feature_params = None ∧
  goodFeaturesToTrack (level2 frame_0) None feature_params = None.

Global Instance no_corners_dec frame_0 : Decision (no_corners frame_0).
Proof. unfold no_corners. apply _. Defined.

(** The world once frame 0 was seeded without a corner. *)
Definition seeded (frame_0 : image) (w : world) : world :=
  {| builder := set_corners_at_frame 0 (mkFrameCorners [] [] []) (builder w);
     calls := calls w ++ [DetectCall frame_0 None;
                          DetectCall (level1 frame_0) None;
                          DetectCall (level2 frame_0) None] |}.

End Pipeline.

Arguments DetectCall {image} level mask.
Arguments TrackCall {image} image_0 image_1 prev.

(** ** The short-track filter (module [_corners], imported on line 19) *)

(** How often an id occurs in the whole storage. *)
Definition occurrences (storage : CornerStorage) (i : Z) : nat :=
  length (filter (λ j, j = i) (storage ≫= ids)).

(** A frame filtered by a predicate on its ids, then the same for a whole
    sequence of frames, in their order. *)
Definition filter_by_id (keep : Z → bool) (c : FrameCorners) : exn + FrameCorners :=
  filter_frame_corners c (keep <$> ids c).

Fixpoint filter_frames (keep : Z → bool) (frames : list FrameCorners)
    : exn + list FrameCorners :=
  match frames with
  | [] => inr []
  | c :: rest =>
      match filter_by_id keep c, filter_frames keep rest with
      | inr c', inr rest' => inr (c' :: rest')
      | inl e, _ | _, inl e => inl e
      end
  end.

(** Modelled from the spec: [without_short_tracks] of [_corners] counts the
    occurrences of each id over the whole storage and discards from every
    frame the ids that occur fewer than [min_len] times; the result is a
    new storage with the frames in their order. *)
Definition without_short_tracks (storage : CornerStorage) (min_len : Z)
    : exn + CornerStorage :=
  match filter_frames
          (λ i, bool_decide (min_len ≤ Z.of_nat (occurrences storage i)))
          storage with
  | inr frames => inr (StorageImpl frames)
  | inl e => inl e
  end.

(** The corners of a frame as (id, position, size) entries, in order. *)
Definition entries (c : FrameCorners) : list (Z * (point * Z)) :=
  zip (ids c) (zip (points c) (sizes c)).

(** An id is present somewhere in a storage. *)
Definition appears (i : Z) (storage : CornerStorage) : Prop :=
  ∃ c, c ∈ storage ∧ i ∈ ids c.

(** ** Builder call sequences *)

(** The builder after the calls [set_corners_at_frame(frame, corners)] for
    the pairs of [ws], first to last. *)
Definition set_all (ws : list (Z * FrameCorners)) (self : _CornerStorageBuilder)
    : _CornerStorageBuilder :=
  foldl (λ b w, set_corners_at_frame w.1 w.2 b) self ws.

(** The corners of the last call made for frame [k], if any. *)
Fixpoint last_write (ws : list (Z * FrameCorners)) (k : Z) : option FrameCorners :=
  match ws with
  | [] => None
  | (k', c) :: ws' =>
      match last_write ws' k with
      | Some c' => Some c'
      | None => if decide (k = k') then Some c else None
      end
  end.

(** ** Concrete frame sequences

    An image is named by its frame number and pyramid level. *)
Module Scenario.

Definition Img : Type := (nat * nat)%type.
Definition frame (n : nat) : Img := (n, O).
Definition down (i : Img) : Img := (i.1, S i.2).

Definition pt (x y : Z) : point := (inject_Z x, inject_Z y).

(** A detector that never finds a corner. *)
Definition detect_nothing
    : Img → option Mask → FeatureParams → option (list point) :=
  λ _ _ _, None.

(** Frame 0 yields (10,10) at level 0 and (5,5) at level 1. *)
Definition detect_two_levels
    : Img → option Mask → FeatureParams → option (list point) :=
  λ i _ _,
    match i with
    | (O, O) => Some [pt 10 10]
    | (O, S O) => Some [pt 5 5]
    | _ => None
    end.

(** One corner at level 0 of every frame. *)
Definition detect_one
    : Img → option Mask → FeatureParams → option (list point) :=
  λ i _ _, match i with (_, O) => Some [pt 3 4] | _ => None end.

(** Nothing in frame 0, one corner at level 0 of the later frames. *)
Definition detect_later
    : Img → option Mask → FeatureParams → option (list point) :=
  λ i _ _, match i with (S _, O) => Some [pt 3 4] | _ => None end.

(** A tracker that loses every point. *)
Definition track_none
    : Img → Img → list point → LKParams →
      option (list point * list Z * list Q) :=
  λ _ _ prev _, Some (prev, (λ _, 0) <$> prev, (λ _, 0%Q) <$> prev).

(** A tracker that keeps every point where it was. *)
Definition track_all
    : Img → Img → list point → LKParams →
      option (list point * list Z * list Q) :=
  λ _ _ prev _, Some (prev, (λ _, 1) <$> prev, (λ _, 0%Q) <$> prev).

(** A tracker that refuses an empty list of points, and keeps the points
    of any other list. *)
Definition track_strict
    : Img → Img → list point → LKParams →
      option (list point * list Z * list Q) :=
  λ _ _ prev _,
    match prev with
    | [] => None
    | _ => Some (prev, (λ _, 1) <$> prev, (λ _, 0%Q) <$> prev)
    end.

(** A drawing that takes whole pixels only. *)
Definition circle_pixels : Mask → point → Z → option Mask :=
  λ mask centre radius,
    if decide (Qden (Qred centre.1) = 1%positive ∧
               Qden (Qred centre.2) = 1%positive)
    then Some (mask ++ [(centre, radius)]) else None.

Definition empty_frame : FrameCorners := mkFrameCorners [] [] [].
Definition frame_a : FrameCorners := mkFrameCorners [0; 1] [pt 1 1; pt 2 2] [7; 7].
Definition frame_b : FrameCorners := mkFrameCorners [0] [pt 1 2] [7].
Definition frame_c : FrameCorners := mkFrameCorners [0; 2] [pt 1 3; pt 5 5] [7; 14].

(** Builders after the calls for the frames 0 and 1, and for 0 and 2. *)
Definition builder_01 : _CornerStorageBuilder :=
  set_all [(0, frame_a); (1, frame_b)] (new_builder None).
Definition builder_02 : _CornerStorageBuilder :=
  set_all [(0, frame_a); (2, frame_c)] (new_builder (Some 0%nat)).

End Scenario.

(** * Proofs *)

(** ** The storage builder *)

Section Builder.
Implicit Types (ws : list (Z * FrameCorners)) (self : _CornerStorageBuilder).

Global Instance item_le_total : Total item_le.
Proof. intros a b. unfold item_le. lia. Qed.

Global Instance item_le_trans : Transitive item_le.
Proof. intros a b c. unfold item_le. lia. Qed.

Lemma set_all_cons w ws self :
  set_all (w :: ws) self = set_all ws (set_corners_at_frame w.1 w.2 self).
Proof. done. Qed.

Lemma set_all_lookup ws self k :
  _corners (set_all ws self) !! k =
    match last_write ws k with
    | Some c => Some c
    | None => _corners self !! k
    end.
Proof.
  revert self. induction ws as [|[k' c] ws IH]; intros self; [done|].
  rewrite set_all_cons, IH. cbn [last_write].
  destruct (last_write ws k); [done|]. simpl.
  destruct (decide (k = k')) as [->|Hne].
  - by rewrite lookup_insert_eq.
  - by rewrite lookup_insert_ne.
Qed.

Lemma set_all_progress ws self :
  _progress_indicator (set_all ws self) =
    (λ pos, pos + length ws)%nat <$> _progress_indicator self.
Proof.
  revert self. induction ws as [|w ws IH]; intros self.
  - simpl. destruct (_progress_indicator self); simpl; f_equal; lia.
  - rewrite set_all_cons, IH. simpl.
    destruct (_progress_indicator self); simpl; f_equal; lia.
Qed.

Lemma last_write_None ws k : last_write ws k = None ↔ k ∉ ws.*1.
Proof.
  induction ws as [|[k' c] ws IH]; simpl.
  - split; [intros _; apply not_elem_of_nil | done].
  - rewrite not_elem_of_cons. destruct (last_write ws k) eqn:E.
    + split; [done|]. intros [_ Hn]. by apply IH in Hn.
    + destruct (decide (k = k')) as [->|Hne].
      * split; [done|]. by intros [? _].
      * split; [|done]. intros _. split; [done|]. by apply IH.
Qed.

Lemma last_write_elem_of ws k c : last_write ws k = Some c → (k, c) ∈ ws.
Proof.
  induction ws as [|[k' c'] ws IH]; simpl; [done|].
  destruct (last_write ws k) eqn:E.
  - intros [= ->]. right. by apply IH.
  - destruct (decide (k = k')) as [->|]; [|done]. intros [= ->]. left.
Qed.

Lemma NoDup_fst_agree ws k c1 c2 :
  NoDup ws.*1 → (k, c1) ∈ ws → (k, c2) ∈ ws → c1 = c2.
Proof.
  induction ws as [|[k' c'] ws IH]; simpl; [by intros _ ?%elem_of_nil|].
  rewrite NoDup_cons. intros [Hk Hnd] H1 H2.
  apply elem_of_cons in H1 as [H1|H1]; apply elem_of_cons in H2 as [H2|H2].
  - congruence.
  - destruct Hk. injection H1 as <- _.
    by apply (list_elem_of_fmap_2 fst _ (k, c2)).
  - destruct Hk. injection H2 as <- _.
    by apply (list_elem_of_fmap_2 fst _ (k, c1)).
  - by apply IH.
Qed.

Lemma last_write_NoDup ws k c :
  NoDup ws.*1 → (k, c) ∈ ws → last_write ws k = Some c.
Proof.
  intros Hnd Hin. destruct (last_write ws k) as [c'|] eqn:E.
  - f_equal. apply last_write_elem_of in E. by eapply NoDup_fst_agree.
  - apply last_write_None in E. destruct E.
    by apply (list_elem_of_fmap_2 fst _ (k, c)).
Qed.

Lemma last_write_Permutation ws ws' k :
  ws' ≡ₚ ws → NoDup ws.*1 → last_write ws' k = last_write ws k.
Proof.
  intros Hp Hnd.
  assert (NoDup ws'.*1) as Hnd' by (by rewrite Hp).
  destruct (last_write ws k) as [c|] eqn:E.
  - apply last_write_NoDup; [done|]. rewrite Hp. by apply last_write_elem_of.
  - apply last_write_None. rewrite Hp. by apply last_write_None.
Qed.

Lemma StronglySorted_le_lt (l : list Z) :
  StronglySorted Z.le l → NoDup l → StronglySorted Z.lt l.
Proof.
  induction 1 as [|x l Hs IH Hx]; [constructor|].
  rewrite NoDup_cons. intros [Hnin Hnd]. constructor; [by apply IH|].
  rewrite Forall_forall in Hx |- *. intros y Hy.
  specialize (Hx y Hy). assert (x ≠ y) by (by intros ->). lia.
Qed.

(** The storage lists, by ascending frame index, the corners held for
    each index of the dict. *)
Lemma build_corner_storage_spec self :
  ∃ ks, StronglySorted Z.lt ks ∧
        (∀ k, k ∈ ks ↔ is_Some (_corners self !! k)) ∧
        Forall2 (λ k c, _corners self !! k = Some c) ks
                (build_corner_storage self).
Proof.
  unfold build_corner_storage, StorageImpl.
  set (l := merge_sort item_le (map_to_list (_corners self))).
  assert (l ≡ₚ map_to_list (_corners self)) as Hp
    by apply merge_sort_Permutation.
  exists (l.*1). split_and!.
  - apply StronglySorted_le_lt.
    + apply StronglySorted_fmap with (R1 := item_le); [by intros ??|].
      apply StronglySorted_merge_sort; apply _.
    + rewrite Hp. apply NoDup_fst_map_to_list.
  - intros k. rewrite Hp. rewrite list_elem_of_fmap. split.
    + intros ([k' c] & -> & Hin). apply elem_of_map_to_list in Hin. by exists c.
    + intros [c Hc]. exists (k, c). split; [done|]. by apply elem_of_map_to_list.
  - apply Forall2_fmap, Forall_Forall2_diag, Forall_forall.
    intros [k c] Hin. rewrite Hp in Hin. by apply elem_of_map_to_list in Hin.
Qed.

Lemma StronglySorted_lt_range (ks : list Z) (n : nat) :
  StronglySorted Z.lt ks → (∀ k, k ∈ ks ↔ 0 ≤ k < Z.of_nat n) →
  ks = seqZ 0 (Z.of_nat n).
Proof.
  intros Hs Hm.
  assert (AntiSymm (=) Z.lt) by (intros x y ??; lia).
  apply (StronglySorted_unique Z.lt); [done| |].
  - apply (Sorted_StronglySorted _). clear. 
    generalize 0. induction n as [|n IH]; intros lo; [constructor|].
    rewrite Nat2Z.inj_succ, seqZ_cons by lia.
    replace (Z.pred (Z.succ (Z.of_nat n))) with (Z.of_nat n) by lia.
    constructor; [apply IH|]. destruct n; [constructor|].
    rewrite Nat2Z.inj_succ, seqZ_cons by lia. constructor. lia.
  - apply NoDup_Permutation.
    + clear Hm. induction Hs as [|x l Hs IH Hx]; constructor; [|done].
      intros Hin. rewrite Forall_forall in Hx. specialize (Hx x Hin). lia.
    + apply NoDup_seqZ.
    + intros k. rewrite Hm, elem_of_seqZ. lia.
Qed.

Lemma set_all_same_last ws ws' self :
  (∀ k, last_write ws' k = last_write ws k) →
  _corners (set_all ws' self) = _corners (set_all ws self).
Proof. intros H. apply map_eq. intros k. by rewrite !set_all_lookup, H. Qed.

(** C7.  After any sequence of [set_corners_at_frame] calls the built
    storage lists, by ascending frame index, the corners written last
    for each index written; it is the same for every order of the calls
    that leaves the last write of each index the same, so for every
    order when no index is written twice; and when the indices written
    are 0 .. n-1 the entry at position [i] is the last write for
    frame [i]. *)
Theorem builder_last_write_wins progress_indicator ws :
  let built ws := build_corner_storage (set_all ws (new_builder progress_indicator)) in
  (∃ ks, StronglySorted Z.lt ks ∧ (∀ k, k ∈ ks ↔ k ∈ ws.*1) ∧
         Forall2 (λ k c, last_write ws k = Some c) ks (built ws)) ∧
  (∀ ws', (∀ k, last_write ws' k = last_write ws k) → built ws' = built ws) ∧
  (∀ ws', ws' ≡ₚ ws → NoDup ws.*1 → built ws' = built ws) ∧
  (∀ n : nat, (∀ k, k ∈ ws.*1 ↔ 0 ≤ k < Z.of_nat n) →
     length (built ws) = n ∧
     ∀ i : nat, (i < n)%nat → built ws !! i = last_write ws (Z.of_nat i)).
Proof.
  intros built.
  assert (∀ k, _corners (set_all ws (new_builder progress_indicator)) !! k
               = last_write ws k) as Hlook.
  { intros k. rewrite set_all_lookup. simpl. rewrite lookup_empty.
    by destruct (last_write ws k). }
  assert (∀ k, is_Some (last_write ws k) ↔ k ∈ ws.*1) as Hsome.
  { intros k. rewrite <-not_eq_None_Some, last_write_None.
    destruct (decide (k ∈ ws.*1)); tauto. }
  assert (∀ ws', (∀ k, last_write ws' k = last_write ws k) →
                 built ws' = built ws) as Hsame.
  { intros ws' H. unfold built, build_corner_storage.
    by rewrite (set_all_same_last ws ws'). }
  destruct (build_corner_storage_spec (set_all ws (new_builder progress_indicator)))
    as (ks & Hsorted & Hmem & Hall).
  assert (∀ k, k ∈ ks ↔ k ∈ ws.*1) as Hks.
  { intros k. by rewrite Hmem, Hlook, Hsome. }
  assert (Forall2 (λ k c, last_write ws k = Some c) ks (built ws)) as Hall'.
  { eapply Forall2_impl; [exact Hall|]. intros k c. simpl. by rewrite Hlook. }
  split_and!.
  - by exists ks.
  - done.
  - intros ws' Hp Hnd. apply Hsame. intros k. by apply last_write_Permutation.
  - intros n Hn.
    assert (ks = seqZ 0 (Z.of_nat n)) as ->.
    { apply StronglySorted_lt_range; [done|]. intros k. by rewrite Hks. }
    pose proof (Forall2_length _ _ _ Hall') as Hlen.
    rewrite length_seqZ in Hlen. split; [lia|].
    intros i Hi.
    destruct (Forall2_lookup_l _ _ _ i (Z.of_nat i) Hall') as (c & Hc & Hw).
    { rewrite lookup_seqZ. split; lia. }
    rewrite Hw. exact Hc.
Qed.
End Builder.

(** ** The pipeline *)

Section PipelineFacts.
Context {image : Type}.
Variable pyrDown : image → image.
Variable goodFeaturesToTrack :
  image → option Mask → FeatureParams → option (list point).
Variable calcOpticalFlowPyrLK :
  image → image → list point → LKParams →
  option (list point * list Z * list Q).
Variable circle : Mask → point → Z → option Mask.

Abbreviation impl :=
  (_build_impl pyrDown goodFeaturesToTrack calcOpticalFlowPyrLK circle).
Abbreviation run :=
  (build pyrDown goodFeaturesToTrack calcOpticalFlowPyrLK circle).
Abbreviation tracking_error image_0 image_1 prev :=
  (match calcOpticalFlowPyrLK image_0 image_1 prev lk_params with
   | Some _ => NameError "filter_frame_corners"
   | None => Cv2Error
   end).
Abbreviation detector l := (goodFeaturesToTrack l None feature_params).
Abbreviation quiet := (no_corners pyrDown goodFeaturesToTrack).
Abbreviation seeded_from := (seeded pyrDown).
Abbreviation logged w cs := (mkWorld (builder w) (calls w ++ cs)).

Implicit Types (w : @world image) (fs rest levels : list image).

Lemma new_corners_unbound :
  load_global "new_corners" = inl (NameError "new_corners").
Proof. reflexivity. Qed.

Lemma filter_frame_corners_unbound :
  load_global "filter_frame_corners" = inl (NameError "filter_frame_corners").
Proof. reflexivity. Qed.

Lemma run_bind {A B} (m : M A) (k : A → M B) w :
  (m ≫= k) w =
    match m w with
    | (w', inr x) => k x w'
    | (w', inl e) => (w', inl e)
    end.
Proof. reflexivity. Qed.

Lemma logged_nil w : logged w [] = w.
Proof. destruct w. simpl. by rewrite app_nil_r. Qed.

Lemma logged_logged w cs1 cs2 : logged (logged w cs1) cs2 = logged w (cs1 ++ cs2).
Proof. simpl. by rewrite (assoc_L (++)). Qed.

(** One level of frame 0: the detector is called, and a result other
    than [None] stops the run at line 69. *)
Lemma seed_level_run counter level acc w :
  seed_level goodFeaturesToTrack counter level acc w =
    (logged w [DetectCall level None],
     match detector level with
     | Some _ => inl (NameError "new_corners")
     | None => inr acc
     end).
Proof.
  destruct acc as [p s]. unfold seed_level. rewrite run_bind.
  unfold detect at 1. cbv beta iota.
  destruct (detector level); [|done].
  rewrite run_bind. by rewrite new_corners_unbound.
Qed.

Lemma seed_loop_quiet levels start acc w :
  Forall (λ l, detector l = None) levels →
  for_enumerate (seed_level goodFeaturesToTrack) start levels acc w =
    (logged w ((λ l, DetectCall l None) <$> levels), inr acc).
Proof.
  intros H. revert start w.
  induction H as [|l levels Hl _ IH]; intros start w.
  - simpl. by rewrite logged_nil.
  - cbn [for_enumerate]. rewrite run_bind, seed_level_run, Hl, IH.
    by rewrite logged_logged.
Qed.

Lemma seed_loop_fault levels start acc w :
  ¬ Forall (λ l, detector l = None) levels →
  ∃ n, for_enumerate (seed_level goodFeaturesToTrack) start levels acc w =
         (logged w ((λ l, DetectCall l None) <$> take (S n) levels),
          inl (NameError "new_corners")).
Proof.
  revert start w. induction levels as [|l levels IH]; intros start w Hn.
  - destruct Hn. constructor.
  - cbn [for_enumerate]. rewrite run_bind, seed_level_run.
    destruct (detector l) eqn:El.
    + exists 0%nat. cbn [take]. by rewrite take_0.
    + destruct (IH (S start) (logged w [DetectCall l None])) as [n Hrun].
      { intros Hall. apply Hn. by constructor. }
      exists (S n). rewrite Hrun. by rewrite logged_logged.
Qed.

Lemma quiet_levels frame_0 :
  quiet frame_0 ↔ Forall (λ l, detector l = None) (pyramid pyrDown max_level frame_0).
Proof.
  unfold no_corners, level1, level2. cbn [pyramid max_level].
  rewrite !Forall_cons, Forall_nil. tauto.
Qed.

Lemma impl_empty w : impl [] w = (w, inl IndexError).
Proof. reflexivity. Qed.

(** A corner found in frame 0 stops the run at line 69, before anything
    is committed and before the tracker is called. *)
Lemma impl_seed_fault frame_0 rest w :
  ¬ quiet frame_0 →
  ∃ n, impl (frame_0 :: rest) w =
         (logged w ((λ l, DetectCall l None) <$>
                      take (S n) (pyramid pyrDown max_level frame_0)),
          inl (NameError "new_corners")).
Proof.
  rewrite quiet_levels. intros Hn.
  destruct (seed_loop_fault _ 0%nat ([], []) w Hn) as [n Hrun].
  exists n. unfold _build_impl. rewrite run_bind. cbn [lift index0].
  by rewrite run_bind, Hrun.
Qed.

Lemma impl_seed frame_0 w :
  quiet frame_0 →
  for_enumerate (seed_level goodFeaturesToTrack) 0
    (pyramid pyrDown max_level frame_0) ([], []) w = (logged w
      [DetectCall frame_0 None; DetectCall (level1 pyrDown frame_0) None;
       DetectCall (level2 pyrDown frame_0) None], inr ([], [])).
Proof. intros Hq%quiet_levels. by rewrite seed_loop_quiet. Qed.

(** A single frame without corners: frame 0 is committed empty and the
    run ends. *)
Lemma impl_single frame_0 w :
  quiet frame_0 → impl [frame_0] w = (seeded_from frame_0 w, inr ()).
Proof.
  intros Hq. unfold _build_impl. rewrite run_bind. cbn [lift index0].
  rewrite run_bind, impl_seed by done. cbv beta iota.
  rewrite run_bind. done.
Qed.

(** A second frame stops the run inside the tracker call of line 82 or at
    line 89 right after it, before anything is committed for it. *)
Lemma impl_track_fault frame_0 image_1 rest w :
  quiet frame_0 →
  impl (frame_0 :: image_1 :: rest) w =
    (logged (seeded_from frame_0 w) [TrackCall frame_0 image_1 []],
     inl (tracking_error frame_0 image_1 [])).
Proof.
  intros Hq. unfold _build_impl. rewrite run_bind. cbn [lift index0].
  rewrite run_bind, impl_seed by done. cbv beta iota.
  rewrite run_bind. change (lift (FrameCorners_new _ _ _) _)
    with (logged w [DetectCall frame_0 None; DetectCall (level1 pyrDown frame_0) None;
       DetectCall (level2 pyrDown frame_0) None], @inr exn _ (mkFrameCorners [] [] [])).
  cbv beta iota. rewrite run_bind. cbn [builder_set builder calls].
  rewrite run_bind. cbn [tail for_enumerate]. rewrite run_bind.
  unfold track_frame at 1. rewrite run_bind. unfold track at 1.
  cbn [points builder calls].
  destruct (calcOpticalFlowPyrLK frame_0 image_1 [] lk_params)
    as [[[next st] err]|]; [|done].
  rewrite run_bind. by rewrite filter_frame_corners_unbound.
Qed.


Lemma storage_of_seeded frame_0 progress :
  build_corner_storage (builder (seeded_from frame_0 (start progress))) =
    [mkFrameCorners [] [] []].
Proof. by destruct progress. Qed.

Lemma run_single frame_0 progress :
  quiet frame_0 →
  run [frame_0] progress =
    (seeded_from frame_0 (start progress), inr [mkFrameCorners [] [] []]).
Proof.
  intros Hq. unfold build, build_from. rewrite run_bind, impl_single by done.
  cbv beta iota. rewrite run_bind. unfold the_builder at 1. cbv beta iota.
  by rewrite storage_of_seeded.
Qed.

Lemma run_fault fs progress w e :
  impl fs (start progress) = (w, inl e) → run fs progress = (w, inl e).
Proof. intros H. unfold build, build_from. by rewrite run_bind, H. Qed.

(** [build] returns a storage only for a single frame without corners,
    and the storage is then the one empty frame. *)
Lemma run_returns fs progress w storage :
  run fs progress = (w, inr storage) →
  ∃ frame_0, fs = [frame_0] ∧ quiet frame_0 ∧
             w = seeded_from frame_0 (start progress) ∧
             storage = [mkFrameCorners [] [] []].
Proof.
  destruct fs as [|frame_0 rest].
  - by rewrite (run_fault _ _ _ _ (impl_empty _)).
  - destruct (decide (quiet frame_0)) as [Hq|Hn].
    + destruct rest as [|image_1 rest].
      * rewrite run_single by done. intros [= <- <-]. by exists frame_0.
      * by rewrite (run_fault _ _ _ _ (impl_track_fault _ _ _ _ Hq)).
    + destruct (impl_seed_fault frame_0 rest (start progress) Hn) as [n Hrun].
      by rewrite (run_fault _ _ _ _ Hrun).
Qed.





(** C9.  A sequence of two or more frames never reaches the commit of
    line 90: the run stops with a [NameError], or inside the tracker call
    of line 82 when the tracker refuses the empty list of points, and
    [build] returns no storage, the builder holding no frame other than
    frame 0 and having been written at most once. *)
Theorem build_two_frames_fault frame_0 image_1 rest progress :
  let r := build pyrDown goodFeaturesToTrack calcOpticalFlowPyrLK circle
             (frame_0 :: image_1 :: rest) progress in
  ((∃ name, r.2 = inl (NameError name)) ∨
   (calcOpticalFlowPyrLK frame_0 image_1 [] lk_params = None ∧
    r.2 = inl Cv2Error)) ∧
  dom (_corners (builder r.1)) ⊆ {[0]} ∧
  (∃ n, (n ≤ 1)%nat ∧
        _progress_indicator (builder r.1) = if progress then Some n else None).
Proof.
  destruct (decide (quiet frame_0)) as [Hq|Hn].
  - rewrite (run_fault _ _ _ _ (impl_track_fault _ _ _ _ Hq)).
    split.
    { cbn [snd]. destruct (calcOpticalFlowPyrLK frame_0 image_1 [] lk_params);
        [left; by eexists|by right]. }
    cbn [fst builder seeded set_corners_at_frame _corners
      _progress_indicator start new_builder]. split.
    + rewrite dom_insert_L. set_solver.
    + exists 1%nat. split; [lia|]. by destruct progress.
  - destruct (impl_seed_fault frame_0 (image_1 :: rest) (start progress) Hn)
      as [n Hrun].
    rewrite (run_fault _ _ _ _ Hrun). split; [left; by eexists|].
    cbn [fst builder start new_builder _corners _progress_indicator]. split.
    + set_solver.
    + exists 0%nat. split; [lia|]. by destruct progress.
Qed.
End PipelineFacts.

(** ** The short-track filter *)

Section ShortTracks.
Variable P : Z → Prop.
Context `{!∀ i, Decision (P i)}.

Abbreviation keep := (λ i, bool_decide (P i)).

(** Filtering a well-shaped frame by a predicate on its ids keeps the
    entries whose id satisfies it, in their order. *)
Lemma filter_by_id_entries c :
  frame_ok c →
  ∃ c', filter_by_id keep c = inr c' ∧ frame_ok c' ∧
        ids c' = filter P (ids c) ∧
        entries c' = filter (λ e, P e.1) (entries c).
Proof.
  destruct c as [il ps ss]. unfold frame_ok, filter_by_id, filter_frame_corners, entries.
  cbn [ids points sizes]. revert ps ss.
  induction il as [|i il IH]; intros [|p ps] [|s ss] (H1 & H2 & Hnd); try done.
  - eexists. cbn. split; [done|]. split_and!; try done.
  - apply NoDup_cons in Hnd as [Hi Hnd].
    destruct (IH ps ss) as (c' & Hrun & (L1 & L2 & Hnd') & Hids & Hent).
    { simpl in *. split_and!; [lia|lia|done]. }
    cbn [fmap list_fmap mask_select] in *.
    destruct (mask_select il _) as [|il'] eqn:E1; [done|].
    destruct (mask_select ps _) as [|ps'] eqn:E2; [done|].
    destruct (mask_select ss _) as [|ss'] eqn:E3; [done|].
    injection Hrun as <-. cbn [ids points sizes] in *.
    cbn [zip zip_with]. rewrite !filter_cons. cbn [fst].
    destruct (decide (P i)) as [HP|HP].
    + rewrite (bool_decide_eq_true_2 _ HP). eexists. split; [done|].
      cbn [ids points sizes length zip zip_with].
      split_and!; try congruence.
      apply NoDup_cons. split; [|done]. rewrite Hids, list_elem_of_filter. tauto.
    + rewrite (bool_decide_eq_false_2 _ HP). eexists. split; [done|].
      by split_and!.
Qed.

Lemma filter_frames_spec frames :
  Forall frame_ok frames →
  ∃ r, filter_frames keep frames = inr r ∧ Forall frame_ok r ∧
       Forall2 (λ c c', ids c' = filter P (ids c) ∧
                        entries c' = filter (λ e, P e.1) (entries c)) frames r.
Proof.
  induction 1 as [|c frames Hc _ (r & Hrun & Hok & Hall)].
  - exists []. by split_and!.
  - destruct (filter_by_id_entries c Hc) as (c' & Hc' & Hok' & Hids & Hent).
    exists (c' :: r). cbn [filter_frames]. rewrite Hc', Hrun.
    split_and!; [done|by constructor|by constructor].
Qed.
End ShortTracks.

Lemma occurrences_pos storage i : (0 < occurrences storage i)%nat ↔ appears i storage.
Proof.
  unfold occurrences, appears. split.
  - intros Hlen. destruct (filter _ _) as [|j l] eqn:E; [simpl in Hlen; lia|].
    assert (j ∈ filter (λ j, j = i) (storage ≫= ids)) as Hj by (rewrite E; left).
    apply list_elem_of_filter in Hj as [-> Hj].
    apply list_elem_of_bind in Hj as (c & ? & ?). by exists c.
  - intros (c & Hc & Hi).
    assert (i ∈ filter (λ j, j = i) (storage ≫= ids)) as Hin.
    { apply list_elem_of_filter. split; [done|]. apply list_elem_of_bind. by exists c. }
    destruct (filter _ _); [by apply elem_of_nil in Hin|simpl; lia].
  Qed.

Lemma filter_all {A} (Q : A → Prop) `{!∀ x, Decision (Q x)} (l : list A) :
  Forall Q l → filter Q l = l.
Proof.
  induction 1 as [|x l Hx _ IH]; [done|].
  rewrite filter_cons. destruct (decide (Q x)); [by rewrite IH|done].
Qed.

Lemma entries_inj c c' :
  frame_ok c → frame_ok c' → entries c' = entries c → c' = c.
Proof.
  destruct c as [il ps ss], c' as [il' ps' ss']. unfold frame_ok, entries.
  cbn [ids points sizes]. intros (H1 & H2 & _) (H1' & H2' & _) Hz.
  pose proof (f_equal (fmap fst) Hz) as Hi.
  pose proof (f_equal (fmap snd) Hz) as Hz'.
  rewrite !fst_zip in Hi by (rewrite length_zip; lia).
  rewrite !snd_zip in Hz' by (rewrite length_zip; lia).
  pose proof (f_equal (fmap fst) Hz') as Hp.
  pose proof (f_equal (fmap snd) Hz') as Hs.
  rewrite !fst_zip in Hp by lia. rewrite !snd_zip in Hs by lia.
  by subst.
Qed.

(** C8.  On a storage of well-shaped frames the filter returns a storage
    with as many frames, each holding, in their order, the entries of the
    same frame of the input whose id occurs at least [min_len] times in
    the input.  The result has no id that the input lacks; an id of the
    input is in the result exactly when it occurs at least [min_len] times
    in the input, and so is any id at all when the threshold [min_len] is
    at least 1; with [min_len] equal to 1 the result is the input. *)
Theorem without_short_tracks_spec storage min_len :
  Forall frame_ok storage →
  ∃ r, without_short_tracks storage min_len = inr r ∧
       length r = length storage ∧
       Forall2 (λ c c',
           entries c' =
             filter (λ e, min_len ≤ Z.of_nat (occurrences storage e.1)) (entries c))
         storage r ∧
       (∀ i, appears i r → appears i storage) ∧
       (∀ i, appears i storage →
             (appears i r ↔ min_len ≤ Z.of_nat (occurrences storage i))) ∧
       (1 ≤ min_len →
        ∀ i, appears i r ↔ min_len ≤ Z.of_nat (occurrences storage i)) ∧
       (min_len = 1 → r = storage).
Proof.
  intros Hok. set (P := λ i, min_len ≤ Z.of_nat (occurrences storage i)).
  destruct (filter_frames_spec P storage Hok) as (r & Hrun & Hokr & Hall).
  exists r. unfold without_short_tracks.
  rewrite (eq_refl : filter_frames _ storage = filter_frames (λ i, bool_decide (P i)) storage), Hrun.
  assert (∀ i, appears i r ↔ appears i storage ∧ P i) as Happ.
  { intros i. unfold appears. split.
    - intros (c' & Hc' & Hi).
      apply list_elem_of_lookup in Hc' as [k Hk].
      destruct (Forall2_lookup_r _ _ _ _ _ Hall Hk) as (c & Hc & Hids & _).
      rewrite Hids, list_elem_of_filter in Hi. destruct Hi as [HP Hi].
      split; [|done]. exists c. split; [|done]. by eapply list_elem_of_lookup_2.
    - intros [(c & Hc & Hi) HP].
      apply list_elem_of_lookup in Hc as [k Hk].
      destruct (Forall2_lookup_l _ _ _ _ _ Hall Hk) as (c' & Hc' & Hids & _).
      exists c'. split; [by eapply list_elem_of_lookup_2|].
      rewrite Hids, list_elem_of_filter. done. }
  split_and!.
  - done.
  - symmetry. by eapply Forall2_length.
  - eapply Forall2_impl; [exact Hall|]. by intros c c' [_ ?].
  - intros i Hi. by apply Happ in Hi as [? _].
  - intros i Hi. rewrite Happ. unfold P. tauto.
  - intros Hmin i. rewrite Happ. split; [tauto|]. intros HP. split; [|done].
    apply occurrences_pos. unfold P in HP. lia.
  - intros ->. apply list_eq_same_length with (length storage);
      [done|symmetry; by eapply Forall2_length|].
    intros k c' c _ Hc' Hc.
    destruct (Forall2_lookup_lr _ _ _ _ _ _ Hall Hc Hc') as [_ Hent].
    apply entries_inj;
      [exact (Forall_lookup_1 _ _ _ _ Hok Hc)|exact (Forall_lookup_1 _ _ _ _ Hokr Hc')|].
    rewrite Hent. apply filter_all, Forall_forall. intros [i e] Hi.
    apply elem_of_zip_l in Hi. unfold P. cbn [fst].
    assert (0 < occurrences storage i)%nat; [|lia].
    apply occurrences_pos. exists c. split; [|done].
    by eapply list_elem_of_lookup_2.
Qed.

(** ** Concrete runs *)

Section Runs.
Import Scenario.

Abbreviation empty_storage := [mkFrameCorners [] [] []].

(** C4.  Two frames, nothing detected in frame 0, a tracker that loses
    every point: the run stops with a [NameError] at line 89, right
    after the tracker call; no detection is made on frame 1 and nothing
    is committed for it. *)
Theorem zero_survivors_faults :
  let r := build down detect_later track_none circle_pixels
             [frame 0; frame 1] false in
  r.2 = inl (NameError "filter_frame_corners") ∧
  calls r.1 = [DetectCall (frame 0) None; DetectCall (down (frame 0)) None;
               DetectCall (down (down (frame 0))) None;
               TrackCall (frame 0) (frame 1) []] ∧
  _corners (builder r.1) !! 1 = None.
Proof. vm_compute. by split_and!. Qed.

(** C5.  The seeding scenario: (10,10) at level 0 and (5,5) at level 1 of
    frame 0.  The run stops with a [NameError] at line 69 right after the
    first detector call, and no frame is committed. *)
Theorem seeding_scenario_faults :
  let r := build down detect_two_levels track_all circle_pixels
             [frame 0; frame 1; frame 2] false in
  r.2 = inl (NameError "new_corners") ∧
  calls r.1 = [DetectCall (frame 0) None] ∧
  _corners (builder r.1) = ∅.
Proof. vm_compute. by split_and!. Qed.

(** C6.  Two frames and a detector that never finds a corner: frame 0 is
    committed with no point, then the run stops with a [NameError] at
    line 89 and nothing is committed for frame 1. *)
Theorem no_detections_then_fault :
  let r := build down detect_nothing track_all circle_pixels
             [frame 0; frame 1] true in
  _corners (builder r.1) !! 0 = Some empty_frame ∧
  r.2 = inl (NameError "filter_frame_corners") ∧
  _corners (builder r.1) !! 1 = None.
Proof. vm_compute. by split_and!. Qed.

(** C10.  A single frame in which the detector finds a corner: the
    tracker is not called, but the run stops with a [NameError] at
    line 69 and [build] returns no storage. *)
Theorem single_frame_with_corner_faults :
  let r := build down detect_one track_all circle_pixels [frame 0] true in
  r.2 = inl (NameError "new_corners") ∧
  calls r.1 = [DetectCall (frame 0) None] ∧
  _corners (builder r.1) = ∅.
Proof. vm_compute. by split_and!. Qed.

(** The calls for the indices 2, 0, 1 and for 0, 1, 2 build one storage,
    and its entry 1 is the frame written for index 1. *)
Lemma builder_last_write_wins_witness :
  let ws := [(2, frame_c); (0, frame_a); (1, frame_b)] in
  let ws' := [(0, frame_a); (1, frame_b); (2, frame_c)] in
  build_corner_storage (set_all ws' (new_builder None)) =
    build_corner_storage (set_all ws (new_builder None)) ∧
  build_corner_storage (set_all ws (new_builder None)) !! 1%nat = Some frame_b.
Proof.
  intros ws ws'.
  destruct (builder_last_write_wins None ws) as (_ & _ & Hperm & Hpos).
  split.
  - apply Hperm.
    + exact (Permutation_app_comm [(0, frame_a); (1, frame_b)] [(2, frame_c)]).
    + apply (bool_decide_unpack _). vm_compute. exact I.
  - destruct (Hpos 3%nat) as [_ Hentry].
    + intros k. unfold ws. cbn. rewrite !elem_of_cons, elem_of_nil. lia.
    + rewrite (Hentry 1%nat) by lia. reflexivity.
Defined.

Lemma without_short_tracks_spec_witness :
  let storage := [frame_a; frame_b; frame_c] in
  Forall frame_ok storage ∧
  without_short_tracks storage 2 =
    inr [mkFrameCorners [0] [pt 1 1] [7]; frame_b; mkFrameCorners [0] [pt 1 3] [7]] ∧
  ∃ r, without_short_tracks storage 2 = inr r ∧
       length r = length storage ∧
       ∀ i, appears i r ↔ 2 ≤ Z.of_nat (occurrences storage i).
Proof.
  intros storage.
  assert (Forall frame_ok storage) as Hok
    by (apply (bool_decide_unpack _); vm_compute; exact I).
  split; [exact Hok|]. split; [by vm_compute|].
  destruct (without_short_tracks_spec storage 2 Hok)
    as (r & Hrun & Hlen & _ & _ & _ & Hiff & _).
  exists r. split; [exact Hrun|]. split; [exact Hlen|]. apply Hiff. lia.
Defined.
End Runs.

(** * Further properties of the code *)

(** ** The pipeline on every input *)

Section PipelineOutcome.
Context {image : Type}.
Variable pyrDown : image → image.
Variable goodFeaturesToTrack :
  image → option Mask → FeatureParams → option (list point).
Variable calcOpticalFlowPyrLK :
  image → image → list point → LKParams →
  option (list point * list Z * list Q).
Variable circle : Mask → point → Z → option Mask.

Abbreviation run_build :=
  (build pyrDown goodFeaturesToTrack calcOpticalFlowPyrLK circle).
Abbreviation calm := (no_corners pyrDown goodFeaturesToTrack).
Abbreviation with_calls w cs := (mkWorld (builder w) (calls w ++ cs)).
Abbreviation frame_0_calls frame_0 :=
  [DetectCall frame_0 None; DetectCall (level1 pyrDown frame_0) None;
   DetectCall (level2 pyrDown frame_0) None].

Implicit Types (w : @world image) (fs rest levels : list image).

(** The level at which the seeding stops does not depend on the world. *)
Lemma seed_loop_fault_uniform levels first acc :
  ¬ Forall (λ l, goodFeaturesToTrack l None feature_params = None) levels →
  ∃ n, ∀ w,
    for_enumerate (seed_level goodFeaturesToTrack) first levels acc w =
      (with_calls w ((λ l, DetectCall l None) <$> take (S n) levels),
       inl (NameError "new_corners")).
Proof.
  revert first. induction levels as [|l levels IH]; intros first Hn.
  - destruct Hn. constructor.
  - destruct (goodFeaturesToTrack l None feature_params) eqn:El.
    + exists 0%nat. intros w. cbn [for_enumerate].
      rewrite run_bind, seed_level_run, El. cbn [take]. by rewrite take_0.
    + destruct (IH (S first)) as [n Hrun].
      { intros Hall. apply Hn. by constructor. }
      exists (S n). intros w. cbn [for_enumerate].
      rewrite run_bind, seed_level_run, El, Hrun. by rewrite logged_logged.
Qed.

Lemma build_seed_fault n frame_0 rest progress :
  (∀ w, for_enumerate (seed_level goodFeaturesToTrack) 0
          (pyramid pyrDown max_level frame_0) ([], []) w =
          (with_calls w ((λ l, DetectCall l None) <$>
                           take (S n) (pyramid pyrDown max_level frame_0)),
           inl (NameError "new_corners"))) →
  run_build (frame_0 :: rest) progress =
    (with_calls (start (image := image) progress)
       ((λ l, DetectCall l None) <$>
          take (S n) (pyramid pyrDown max_level frame_0)),
     inl (NameError "new_corners")).
Proof.
  intros Hn. apply run_fault. unfold _build_impl.
  rewrite run_bind. cbn [lift index0]. by rewrite run_bind, Hn.
Qed.

(** The whole outcome of [build], by the shape of its input. *)
Lemma build_outcome fs progress :
  match fs with
  | [] => run_build fs progress = (start progress, inl IndexError)
  | frame_0 :: rest =>
      if decide (calm frame_0) then
        match rest with
        | [] => run_build fs progress =
                  (seeded pyrDown frame_0 (start progress),
                   inr [mkFrameCorners [] [] []])
        | image_1 :: _ =>
            run_build fs progress =
              (with_calls (seeded pyrDown frame_0 (start progress))
                 [TrackCall frame_0 image_1 []],
               inl (match calcOpticalFlowPyrLK frame_0 image_1 [] lk_params with
                    | Some _ => NameError "filter_frame_corners"
                    | None => Cv2Error
                    end))
        end
      else
        ∃ n, run_build fs progress =
               (with_calls (start (image := image) progress)
                  ((λ l, DetectCall l None) <$>
                     take (S n) (pyramid pyrDown max_level frame_0)),
                inl (NameError "new_corners"))
  end.
Proof.
  destruct fs as [|frame_0 rest].
  - apply run_fault, impl_empty.
  - destruct (decide (calm frame_0)) as [Hq|Hn].
    + destruct rest as [|image_1 rest].
      * by apply run_single.
      * by apply run_fault, impl_track_fault.
    + destruct (impl_seed_fault pyrDown goodFeaturesToTrack calcOpticalFlowPyrLK
                  circle frame_0 rest (start progress) Hn) as [n Hrun].
      exists n. by apply run_fault.
Qed.

(** X1.  [build] returns a storage exactly for a single frame in which the
    detector finds no corner at any of the three pyramid levels; the
    storage is then the one frame without corners. *)
Theorem build_returns_iff fs progress w storage :
  run_build fs progress = (w, inr storage) ↔
  ∃ frame_0, fs = [frame_0] ∧ calm frame_0 ∧
             w = seeded pyrDown frame_0 (start progress) ∧
             storage = [mkFrameCorners [] [] []].
Proof.
  split; [apply run_returns|].
  intros (frame_0 & -> & Hq & -> & ->). by apply run_single.
Qed.

(** X2.  The exception [build] raises is decided by the input and by
    whether the tracker accepts the empty list of points: [IndexError]
    exactly for the empty sequence; [NameError] for [new_corners] exactly
    when some level of the first frame has a corner; otherwise, for a
    first frame without corners followed by a second frame, the tracker's
    own exception when the call of line 82 raises and [NameError] for
    [filter_frame_corners] at line 89 when it returns. *)
Theorem build_raises_iff fs progress :
  let r := (build pyrDown goodFeaturesToTrack calcOpticalFlowPyrLK circle
              fs progress).2 in
  (r = inl IndexError ↔ fs = []) ∧
  (r = inl (NameError "new_corners") ↔
     ∃ frame_0 rest, fs = frame_0 :: rest ∧ ¬ calm frame_0) ∧
  (r = inl (NameError "filter_frame_corners") ↔
     ∃ frame_0 image_1 rest, fs = frame_0 :: image_1 :: rest ∧ calm frame_0 ∧
       is_Some (calcOpticalFlowPyrLK frame_0 image_1 [] lk_params)) ∧
  (r = inl Cv2Error ↔
     ∃ frame_0 image_1 rest, fs = frame_0 :: image_1 :: rest ∧ calm frame_0 ∧
       calcOpticalFlowPyrLK frame_0 image_1 [] lk_params = None).
Proof.
  pose proof (build_outcome fs progress) as H.
  destruct fs as [|frame_0 rest].
  - rewrite H. cbn. split_and!; split; try done; naive_solver.
  - destruct (decide (calm frame_0)) as [Hq|Hn].
    + destruct rest as [|image_1 rest]; rewrite H; cbn.
      * split_and!; split; try done; naive_solver.
      * destruct (calcOpticalFlowPyrLK frame_0 image_1 [] lk_params) eqn:E.
        -- assert (is_Some (calcOpticalFlowPyrLK frame_0 image_1 [] lk_params))
             as HS by (rewrite E; by eexists).
           split_and!; split; try done;
             first [ by (intros _; exists frame_0, image_1, rest)
                   | by (intros (? & ? & ? & ? & ? & HN); simplify_eq; congruence)
                   | naive_solver ].
        -- split_and!; split; try done;
             first [ by (intros _; exists frame_0, image_1, rest)
                   | by (intros (? & ? & ? & ? & ? & HS); simplify_eq;
                         rewrite E in HS; destruct HS)
                   | naive_solver ].
    + destruct H as [n ->]. cbn. split_and!; split; try done; naive_solver.
Qed.

(** X3.  The primitives a run calls: at most the detector, without a mask,
    on the three levels of the first frame, and then at most once the
    tracker, on the first two frames and with no point.  The detector is
    never given a mask and never sees a later frame. *)
Theorem build_calls_prefix fs progress :
  calls (build pyrDown goodFeaturesToTrack calcOpticalFlowPyrLK circle fs progress).1
    `prefix_of`
    match fs with
    | [] => []
    | frame_0 :: rest =>
        frame_0_calls frame_0 ++
        match rest with
        | [] => []
        | image_1 :: _ => [TrackCall frame_0 image_1 []]
        end
    end.
Proof.
  pose proof (build_outcome fs progress) as H.
  destruct fs as [|frame_0 rest].
  - by rewrite H.
  - destruct (decide (calm frame_0)) as [Hq|Hn].
    + destruct rest as [|image_1 rest]; rewrite H; cbn; [|done].
      by exists [].
    + destruct H as [n ->]. cbn [fst calls start app].
      transitivity ((λ l, DetectCall l None) <$> pyramid pyrDown max_level frame_0).
      * exists ((λ l, DetectCall l None) <$>
                  drop (S n) (pyramid pyrDown max_level frame_0)).
        by rewrite <-fmap_app, take_drop.
      * by eexists.
Qed.

(** X5.  Whatever the input, a run leaves in the builder no frame or only
    frame 0 without a corner, and the progress bar, when there is one,
    stands at the number of frames committed. *)
Theorem build_commits_no_corner fs progress :
  let self := builder (build pyrDown goodFeaturesToTrack calcOpticalFlowPyrLK circle
                         fs progress).1 in
  (_corners self = ∅ ∨ _corners self = {[ 0 := mkFrameCorners [] [] [] ]}) ∧
  _progress_indicator self =
    if progress then Some (size (_corners self)) else None.
Proof.
  pose proof (build_outcome fs progress) as H.
  assert (∀ w : @world image, w = start progress →
            (_corners (builder w) = ∅ ∨
             _corners (builder w) = {[ 0 := mkFrameCorners [] [] [] ]}) ∧
            _progress_indicator (builder w) =
              if progress then Some (size (_corners (builder w))) else None)
    as Hstart.
  { intros w ->. split; [by left|]. by destruct progress. }
  assert (∀ (w : @world image) frame_0,
            builder w = builder (seeded pyrDown frame_0 (start progress)) →
            (_corners (builder w) = ∅ ∨
             _corners (builder w) = {[ 0 := mkFrameCorners [] [] [] ]}) ∧
            _progress_indicator (builder w) =
              if progress then Some (size (_corners (builder w))) else None)
    as Hseeded.
  { intros w frame_0 ->. split; [by right|]. by destruct progress. }
  destruct fs as [|frame_0 rest].
  - rewrite H. by apply Hstart.
  - destruct (decide (calm frame_0)) as [Hq|Hn].
    + destruct rest as [|image_1 rest]; rewrite H; by apply (Hseeded _ frame_0).
    + destruct H as [n ->]. cbn [fst builder]. split; [by left|].
      by destruct progress.
Qed.

(** X6.  A corner at level 0 of the first frame ends the run at once: the
    coarser levels are not examined, nothing is committed, and the error is
    the [NameError] of line 69, however many frames follow. *)
Theorem first_corner_stops_seeding frame_0 rest progress :
  goodFeaturesToTrack frame_0 None feature_params ≠ None →
  build pyrDown goodFeaturesToTrack calcOpticalFlowPyrLK circle (frame_0 :: rest) progress =
    (with_calls (start (image := image) progress) [DetectCall frame_0 None],
     inl (NameError "new_corners")).
Proof.
  intros Hc. apply run_fault. unfold _build_impl.
  rewrite run_bind. cbn [lift index0]. rewrite run_bind.
  cbn [pyramid max_level for_enumerate]. rewrite run_bind, seed_level_run.
  by destruct (goodFeaturesToTrack frame_0 None feature_params).
Qed.
(** X16.  No frame after the second is ever read: two sequences with
    the same first two frames have the same outcome, builder and calls. *)
Theorem build_ignores_later_frames frame_0 image_1 rest rest' progress :
  build pyrDown goodFeaturesToTrack calcOpticalFlowPyrLK circle
    (frame_0 :: image_1 :: rest) progress =
  build pyrDown goodFeaturesToTrack calcOpticalFlowPyrLK circle
    (frame_0 :: image_1 :: rest') progress.
Proof.
  pose proof (build_outcome (frame_0 :: image_1 :: rest) progress) as H1.
  pose proof (build_outcome (frame_0 :: image_1 :: rest') progress) as H2.
  cbv beta iota in H1, H2.
  destruct (decide (calm frame_0)) as [Hq|Hc]; [congruence|].
  destruct (seed_loop_fault_uniform (pyramid pyrDown max_level frame_0)
              0 ([], [])) as [n Hn].
  { by rewrite <-quiet_levels. }
  by rewrite !(build_seed_fault n).
Qed.

(** X17.  The progress bar is a side channel: with or without it [build]
    makes the same calls, commits the same frames and ends the same way. *)
Theorem build_progress_side_channel fs :
  let r_on := build pyrDown goodFeaturesToTrack calcOpticalFlowPyrLK circle fs true in
  let r_off := build pyrDown goodFeaturesToTrack calcOpticalFlowPyrLK circle fs false in
  r_on.2 = r_off.2 ∧ calls r_on.1 = calls r_off.1 ∧
  _corners (builder r_on.1) = _corners (builder r_off.1).
Proof.
  pose proof (build_outcome fs true) as H1.
  pose proof (build_outcome fs false) as H2.
  destruct fs as [|frame_0 rest].
  - by rewrite H1, H2.
  - destruct (decide (calm frame_0)) as [Hq|Hc].
    + destruct rest as [|image_1 rest]; by rewrite H1, H2.
    + clear H1 H2.
      destruct (seed_loop_fault_uniform (pyramid pyrDown max_level frame_0)
                  0 ([], [])) as [n Hn].
      { by rewrite <-quiet_levels. }
      by rewrite !(build_seed_fault n).
Qed.
End PipelineOutcome.

(** X4.  Of the tracker only the fact that it returns is used, never what
    it returns: two trackers that accept the same arguments give the same
    outcome, the same builder and the same calls on every input. *)
Theorem build_ignores_tracker {image : Type} pyrDown goodFeaturesToTrack
    (tracker_1 tracker_2 :
       image → image → list point → LKParams →
       option (list point * list Z * list Q))
    circle fs progress :
  (∀ image_0 image_1 prev params,
     is_Some (tracker_1 image_0 image_1 prev params) ↔
     is_Some (tracker_2 image_0 image_1 prev params)) →
  build pyrDown goodFeaturesToTrack tracker_1 circle fs progress =
  build pyrDown goodFeaturesToTrack tracker_2 circle fs progress.
Proof.
  intros Hsame.
  pose proof (build_outcome pyrDown goodFeaturesToTrack tracker_1 circle
                fs progress) as H1.
  pose proof (build_outcome pyrDown goodFeaturesToTrack tracker_2 circle
                fs progress) as H2.
  destruct fs as [|frame_0 rest]; [congruence|].
  destruct (decide (no_corners pyrDown goodFeaturesToTrack frame_0)) as [Hq|Hc].
  - destruct rest as [|image_1 rest]; [congruence|].
    rewrite H1, H2. do 2 f_equal.
    specialize (Hsame frame_0 image_1 [] lk_params).
    destruct (tracker_1 frame_0 image_1 [] lk_params) as [?|],
             (tracker_2 frame_0 image_1 [] lk_params) as [?|]; try done.
    + destruct Hsame as [Hs _]. by destruct Hs.
    + destruct Hsame as [_ Hs]. by destruct Hs.
  - clear H1 H2.
    destruct (seed_loop_fault_uniform goodFeaturesToTrack
                (pyramid pyrDown max_level frame_0) 0 ([], [])) as [n Hn].
    { by rewrite <-quiet_levels. }
    by rewrite !(build_seed_fault _ _ _ _ n).
Qed.

(** ** The loop bodies on every state *)

Section LoopBodies.
Context {image : Type}.
Variable pyrDown : image → image.
Variable goodFeaturesToTrack :
  image → option Mask → FeatureParams → option (list point).
Variable calcOpticalFlowPyrLK :
  image → image → list point → LKParams →
  option (list point * list Z * list Q).
Variable circle : Mask → point → Z → option Mask.

Implicit Types (w : @world image) (levels : list image).

(** X7.  The body of the frame loop never gets past line 89: whatever the
    frame, the corners and image carried over and the state of the
    builder, it calls the tracker once on the carried positions and
    raises, the tracker's own exception when the call of line 82 raises
    and else the [NameError] for [filter_frame_corners]; the builder is
    left as it was. *)
Theorem track_frame_always_faults frame image_1 corners image_0 w :
  track_frame pyrDown goodFeaturesToTrack calcOpticalFlowPyrLK circle
    frame image_1 (corners, image_0) w =
    ({| builder := builder w;
        calls := calls w ++ [TrackCall image_0 image_1 (points corners)] |},
     inl (match calcOpticalFlowPyrLK image_0 image_1 (points corners) lk_params with
          | Some _ => NameError "filter_frame_corners"
          | None => Cv2Error
          end)).
Proof.
  unfold track_frame. rewrite run_bind. unfold track at 1.
  destruct (calcOpticalFlowPyrLK image_0 image_1 (points corners) lk_params)
    as [[[next_points st] err]|]; [|done].
  rewrite run_bind. by rewrite filter_frame_corners_unbound.
Qed.

(** X9.  The pyramid built by [n] appends has [n + 1] levels, level [k]
    being the top image taken down [k] times; with [max_level = 2] the
    pipeline works on three levels. *)
Theorem pyramid_levels (n : nat) (top : image) :
  pyramid pyrDown n top = (λ k, Nat.iter k pyrDown top) <$> seq 0 (S n).
Proof.
  revert top. induction n as [|n IH]; intros top; [done|].
  cbn [pyramid]. rewrite IH. cbn [seq fmap list_fmap Nat.iter]. f_equal.
  rewrite <-(fmap_S_seq 1), <-(fmap_S_seq 0), <-!list_fmap_compose.
  f_equal. apply list_fmap_ext. intros _ k _. cbn.
  clear. induction k as [|k IH]; [done|]. cbn. by rewrite <-IH.
Qed.

(** X10.  The seeding loop, over any list of levels, never collects a
    point: when it completes, its accumulator is the one it started with,
    no level had a corner, each level was examined once without a mask and
    the builder is as it was. *)
Theorem seed_loop_collects_nothing levels start acc w w' acc' :
  for_enumerate (seed_level goodFeaturesToTrack) start levels acc w = (w', inr acc') →
  acc' = acc ∧
  Forall (λ l, goodFeaturesToTrack l None feature_params = None) levels ∧
  w' = {| builder := builder w;
          calls := calls w ++ ((λ l, DetectCall l None) <$> levels) |}.
Proof.
  intros Hrun.
  destruct (decide (Forall (λ l, goodFeaturesToTrack l None feature_params = None)
                      levels)) as [Hq|Hn].
  - rewrite seed_loop_quiet in Hrun by done. by injection Hrun as <- <-.
  - destruct (seed_loop_fault goodFeaturesToTrack levels start acc w Hn) as [n Hf].
    by rewrite Hf in Hrun.
Qed.
End LoopBodies.

(** ** The builder, one call at a time *)

Section BuilderSteps.
Implicit Types (self : _CornerStorageBuilder) (frame : Z) (corners : FrameCorners).

Lemma build_corner_storage_items self :
  build_corner_storage self = (sorted_items self).*2.
Proof. done. Qed.

Lemma sorted_items_Permutation self :
  sorted_items self ≡ₚ map_to_list (_corners self).
Proof. apply merge_sort_Permutation. Qed.

Lemma sorted_items_elem_of self k c :
  (k, c) ∈ sorted_items self ↔ _corners self !! k = Some c.
Proof. by rewrite sorted_items_Permutation, elem_of_map_to_list. Qed.

Lemma sorted_items_sorted self : StronglySorted item_le (sorted_items self).
Proof. unfold sorted_items. apply StronglySorted_merge_sort; apply _. Qed.

(** [sorted] has one result: a list of the items in ascending order of
    frame is the list the builder sorts. *)
Lemma sorted_items_unique self l :
  l ≡ₚ map_to_list (_corners self) → StronglySorted item_le l →
  l = sorted_items self.
Proof.
  intros Hp Hs. apply (StronglySorted_unique_strong item_le); [|done| |].
  - intros [k1 c1] [k2 c2] H1 H2 Hle1 Hle2. unfold item_le in *. cbn in *.
    assert (k1 = k2) as -> by lia. f_equal.
    rewrite Hp in H1. apply elem_of_map_to_list in H1.
    apply sorted_items_elem_of in H2. congruence.
  - apply sorted_items_sorted.
  - by rewrite Hp, sorted_items_Permutation.
Qed.

(** X11.  The storage holds the corners of the dict, one entry per frame
    index written: it is as long as the dict has keys, and its entries are
    the values of the dict. *)
Theorem storage_holds_dict_values self :
  length (build_corner_storage self) = size (_corners self) ∧
  ∀ c, c ∈ build_corner_storage self ↔ ∃ k, _corners self !! k = Some c.
Proof.
  rewrite build_corner_storage_items. split.
  - by rewrite length_fmap, sorted_items_Permutation, length_map_to_list.
  - intros c. rewrite list_elem_of_fmap. split.
    + intros ([k c'] & -> & Hin). exists k. by apply sorted_items_elem_of.
    + intros [k Hk]. exists (k, c). split; [done|]. by apply sorted_items_elem_of.
Qed.

(** X12.  A frame index larger than every index written so far puts its
    corners at the end of the storage and leaves the entries before it as
    they were. *)
Theorem build_after_append self frame corners :
  (∀ k, is_Some (_corners self !! k) → k < frame) →
  build_corner_storage (set_corners_at_frame frame corners self) =
    build_corner_storage self ++ [corners].
Proof.
  intros Hlt. rewrite !build_corner_storage_items.
  assert (_corners self !! frame = None) as Hnone.
  { destruct (_corners self !! frame) eqn:E; [|done].
    assert (frame < frame) by (apply Hlt; by rewrite E). lia. }
  rewrite <-(sorted_items_unique (set_corners_at_frame frame corners self)
               (sorted_items self ++ [(frame, corners)])).
  - by rewrite fmap_app.
  - cbn [set_corners_at_frame _corners].
    rewrite map_to_list_insert by done.
    by rewrite <-Permutation_cons_append, sorted_items_Permutation.
  - apply StronglySorted_app. split_and!.
    + intros [k c] x Hin ->%list_elem_of_singleton. unfold item_le. cbn.
      apply sorted_items_elem_of in Hin.
      assert (k < frame) by (apply Hlt; by rewrite Hin). lia.
    + apply sorted_items_sorted.
    + repeat constructor.
Qed.

(** X13.  Writing a frame index that is already in the dict replaces the
    corners of that one entry: the storage keeps its length, the order of
    its frames and every other entry. *)
Theorem build_after_overwrite self frame corners :
  is_Some (_corners self !! frame) →
  build_corner_storage (set_corners_at_frame frame corners self) =
    (λ e, if decide (e.1 = frame) then corners else e.2) <$> sorted_items self.
Proof.
  intros [c0 Hc0]. rewrite build_corner_storage_items.
  set (f := λ e : Z * FrameCorners,
              if decide (e.1 = frame) then (frame, corners) else e).
  assert (∀ e, (f e).1 = e.1) as Hkey.
  { intros [k c]. unfold f. cbn. by destruct (decide (k = frame)). }
  rewrite <-(sorted_items_unique (set_corners_at_frame frame corners self)
               (f <$> sorted_items self)).
  - rewrite <-list_fmap_compose. apply list_fmap_ext. intros _ [k c] _.
    unfold f. cbn. by destruct (decide (k = frame)).
  - apply NoDup_Permutation.
    + apply (NoDup_fmap_1 fst). rewrite <-list_fmap_compose.
      rewrite (list_fmap_ext (fst ∘ f) fst (sorted_items self))
        by (intros; apply Hkey).
      rewrite sorted_items_Permutation. apply NoDup_fst_map_to_list.
    + apply NoDup_map_to_list.
    + intros [k c]. rewrite elem_of_map_to_list, list_elem_of_fmap.
      cbn [set_corners_at_frame _corners]. split.
      * intros ([k' c'] & Heq & Hin). apply sorted_items_elem_of in Hin.
        unfold f in Heq. cbn in Heq. destruct (decide (k' = frame)) as [->|Hne].
        -- injection Heq as -> ->. by rewrite lookup_insert_eq.
        -- injection Heq as -> ->. by rewrite lookup_insert_ne.
      * destruct (decide (k = frame)) as [->|Hne].
        -- rewrite lookup_insert_eq. intros [= <-]. exists (frame, c0).
           split; [|by apply sorted_items_elem_of].
           unfold f. cbn. by rewrite decide_True.
        -- rewrite lookup_insert_ne by done. intros Hk. exists (k, c).
           split; [|by apply sorted_items_elem_of].
           unfold f. cbn. by rewrite decide_False.
  - apply StronglySorted_fmap with (R1 := item_le).
    + intros x y. unfold item_le. by rewrite !Hkey.
    + apply sorted_items_sorted.
Qed.

(** X14.  The progress bar counts calls, not frames: after any sequence of
    calls it has advanced by the number of calls, while the storage has at
    most that many entries; a builder without a progress bar stays
    without one. *)
Theorem progress_counts_calls (ws : list (Z * FrameCorners)) self :
  _progress_indicator (set_all ws self) =
    (λ pos, pos + length ws)%nat <$> _progress_indicator self ∧
  (length (build_corner_storage (set_all ws self)) ≤
     length (build_corner_storage self) + length ws)%nat.
Proof.
  split.
  - revert self. induction ws as [|w ws IH]; intros self.
    + simpl. destruct (_progress_indicator self); simpl; f_equal; lia.
    + rewrite set_all_cons, IH. simpl.
      destruct (_progress_indicator self); simpl; f_equal; lia.
  - revert self. induction ws as [|w ws IH]; intros self; [simpl; lia|].
    rewrite set_all_cons. etrans; [apply IH|].
    destruct (storage_holds_dict_values self) as [-> _].
    destruct (storage_holds_dict_values
                (set_corners_at_frame w.1 w.2 self)) as [-> _].
    cbn [set_corners_at_frame _corners length]. rewrite map_size_insert.
    destruct (_corners self !! w.1); simpl; lia.
Qed.

(** X15.  A gap in the frame indices shortens the storage: when the
    indices written lie in 0 .. n-1 and one of these is missing, the
    storage has fewer than [n] entries, so that positions no longer are
    frame indices. *)
Theorem build_gap_shortens self (n : nat) (k : Z) :
  (∀ j, is_Some (_corners self !! j) → 0 ≤ j < Z.of_nat n) →
  0 ≤ k < Z.of_nat n →
  _corners self !! k = None →
  (length (build_corner_storage self) < n)%nat.
Proof.
  intros Hrange Hk Hnone.
  destruct (storage_holds_dict_values self) as [-> _].
  rewrite <-size_dom.
  set (full := list_to_set (seqZ 0 (Z.of_nat n)) : gset Z).
  assert (size full = n) as Hfull.
  { unfold full. rewrite size_list_to_set by apply NoDup_seqZ.
    rewrite length_seqZ. lia. }
  assert (dom (_corners self) ⊆ full ∖ {[k]}) as Hsub.
  { intros j Hj. apply elem_of_dom in Hj. apply elem_of_difference. split.
    - apply elem_of_list_to_set, elem_of_seqZ. specialize (Hrange j Hj). lia.
    - intros ->%elem_of_singleton. rewrite Hnone in Hj. by destruct Hj. }
  apply subseteq_size in Hsub.
  rewrite size_difference, size_singleton in Hsub.
  - assert (0 < n)%nat by lia. lia.
  - apply singleton_subseteq_l, elem_of_list_to_set, elem_of_seqZ. lia.
Qed.
End BuilderSteps.

(** ** Instances of the properties above *)

Section Instances.
Import Scenario.

Lemma first_corner_stops_seeding_witness :
  detect_one (frame 0) None feature_params ≠ None ∧
  build down detect_one track_all circle_pixels [frame 0; frame 1] true =
    ({| builder := builder (start (image := Img) true);
        calls := [DetectCall (frame 0) None] |},
     inl (NameError "new_corners")).
Proof.
  assert (detect_one (frame 0) None feature_params ≠ None) as Hc by done.
  split; [exact Hc|].
  exact (first_corner_stops_seeding down detect_one track_all circle_pixels
           (frame 0) [frame 1] true Hc).
Defined.

Lemma seed_loop_collects_nothing_witness :
  for_enumerate (seed_level detect_nothing) 0 (pyramid down max_level (frame 0))
    ([pt 1 1], [7]) (start false) =
    ({| builder := new_builder None;
        calls := [DetectCall (frame 0) None; DetectCall (down (frame 0)) None;
                  DetectCall (down (down (frame 0))) None] |},
     inr ([pt 1 1], [7])) ∧
  Forall (λ l, detect_nothing l None feature_params = None)
    (pyramid down max_level (frame 0)).
Proof.
  assert (for_enumerate (seed_level detect_nothing) 0
            (pyramid down max_level (frame 0)) ([pt 1 1], [7]) (start false) =
            ({| builder := new_builder None;
        calls := [DetectCall (frame 0) None; DetectCall (down (frame 0)) None;
                  DetectCall (down (down (frame 0))) None] |},
     inr ([pt 1 1], [7]))) as Hrun
    by reflexivity.
  split; [exact Hrun|].
  exact (proj1 (proj2 (seed_loop_collects_nothing detect_nothing _ _ _ _ _ _ Hrun))).
Defined.

Lemma builder_01_indices k : is_Some (_corners builder_01 !! k) → k < 2.
Proof.
  unfold builder_01. rewrite set_all_lookup. cbn.
  repeat case_decide; try lia. rewrite lookup_empty. by intros [? ?].
Qed.

Lemma build_after_append_witness :
  build_corner_storage (set_corners_at_frame 2 frame_c builder_01) =
    [frame_a; frame_b; frame_c].
Proof.
  rewrite (build_after_append builder_01 2 frame_c builder_01_indices).
  reflexivity.
Defined.

Lemma build_after_overwrite_witness :
  is_Some (_corners builder_01 !! 1) ∧
  build_corner_storage (set_corners_at_frame 1 frame_c builder_01) =
    [frame_a; frame_c].
Proof.
  assert (is_Some (_corners builder_01 !! 1)) as Hk by (by exists frame_b).
  split; [exact Hk|].
  rewrite (build_after_overwrite builder_01 1 frame_c Hk). reflexivity.
Defined.

Lemma builder_02_indices j : is_Some (_corners builder_02 !! j) → 0 ≤ j < 3.
Proof.
  unfold builder_02. rewrite set_all_lookup. cbn.
  repeat case_decide; try lia. rewrite lookup_empty. by intros [? ?].
Qed.

Lemma build_gap_shortens_witness :
  _corners builder_02 !! 1 = None ∧
  (length (build_corner_storage builder_02) < 3)%nat.
Proof.
  assert (_corners builder_02 !! 1 = None) as Hnone by reflexivity.
  split; [exact Hnone|].
  apply (build_gap_shortens builder_02 3 1 builder_02_indices); [lia|exact Hnone].
Defined.
(** With a tracker that refuses the empty list of points the second frame
    stops the run inside the call of line 82; frame 0 stays committed
    empty and nothing is committed for frame 1. *)
Example strict_tracker_stops_at_the_call :
  let r := build down detect_nothing track_strict circle_pixels
             [frame 0; frame 1] true in
  r.2 = inl Cv2Error ∧
  _corners (builder r.1) = {[ 0 := empty_frame ]} ∧
  calls r.1 = [DetectCall (frame 0) None; DetectCall (down (frame 0)) None;
               DetectCall (down (down (frame 0))) None;
               TrackCall (frame 0) (frame 1) []].
Proof. vm_compute. by split_and!. Qed.

Lemma trackers_accept_alike image_0 image_1 prev params :
  is_Some (track_none image_0 image_1 prev params) ↔
  is_Some (track_all image_0 image_1 prev params).
Proof. split; intros _; by eexists. Qed.

Lemma build_ignores_tracker_witness :
  build down detect_nothing track_none circle_pixels [frame 0; frame 1] true =
  build down detect_nothing track_all circle_pixels [frame 0; frame 1] true.
Proof.
  exact (build_ignores_tracker down detect_nothing track_none track_all
           circle_pixels [frame 0; frame 1] true trackers_accept_alike).
Defined.
End Instances.
